(** * app.js: denylist moderation around a chat-completion call

    A shallow embedding of [src/app.js]:
    - the Denylist Matcher ([containsBannedContent], [moderateOutput]),
    - the Completion Client ([callDeepseekAPI]) as the source delimits it,
    - the Orchestrator ([main]).

    A JavaScript string is a sequence of UTF-16 code units, here a list of
    numbers.  The two case conversions the script relies on are written
    out where they touch the code units below 256: [toLowerCase] for every
    code unit below 256 and for the five above whose lower-case form
    contains one (U+0130, U+0178, U+1E9E, U+212A, U+212B), the [i] flag of
    a regular expression for every code unit below 256.  The case pairs
    of the other scripts map code units above 255 to code units above
    255; the embedding leaves those code units as they are. *)

From Stdlib Require Import List Ascii String Bool Arith NArith Lia.
From Stdlib Require Import DecimalString.
Import ListNotations.

(** ** JavaScript strings *)

Module JsString.

Definition jsstring : Type := list N.

(** The source file is UTF-8; the engine holds its literals as UTF-16. *)
Fixpoint utf16_of_utf8 (bytes : list N) : jsstring :=
  match bytes with
  | [] => []
  | b0 :: r0 =>
      if (b0 <? 128)%N then b0 :: utf16_of_utf8 r0
      else
        match r0 with
        | [] => []
        | b1 :: r1 =>
            if (b0 <? 224)%N
            then ((b0 - 192) * 64 + (b1 - 128))%N :: utf16_of_utf8 r1
            else
              match r1 with
              | [] => []
              | b2 :: r2 =>
                  if (b0 <? 240)%N
                  then ((b0 - 224) * 4096 + (b1 - 128) * 64 + (b2 - 128))%N
                         :: utf16_of_utf8 r2
                  else
                    match r2 with
                    | [] => []
                    | b3 :: r3 =>
                        let cp := ((b0 - 240) * 262144 + (b1 - 128) * 4096
                                   + (b2 - 128) * 64 + (b3 - 128))%N in
                        (55296 + (cp - 65536) / 1024)%N
                          :: (56320 + (cp - 65536) mod 1024)%N
                          :: utf16_of_utf8 r3
                    end
              end
        end
  end.

(** A string literal of the source. *)
Definition js (s : string) : jsstring :=
  utf16_of_utf8 (map N_of_ascii (list_ascii_of_string s)).

Definition KELVIN_SIGN : N := 8490.          (* U+212A *)
Definition CAPITAL_I_WITH_DOT : N := 304.    (* U+0130 *)
Definition COMBINING_DOT_ABOVE : N := 775.   (* U+0307 *)

Definition CAPITAL_Y_WITH_DIAERESIS : N := 376.  (* U+0178 *)
Definition CAPITAL_SHARP_S : N := 7838.         (* U+1E9E *)
Definition ANGSTROM_SIGN : N := 8491.           (* U+212B *)

(** [String.prototype.toLowerCase] on one code unit.  A-Z and the
    accented capitals U+00C0-U+00DE (but not the multiplication sign
    U+00D7) move up by 32; the Kelvin sign becomes k; the capital I with
    dot becomes i followed by the combining dot. *)
Definition toLowerCase_unit (n : N) : list N :=
  if ((65 <=? n) && (n <=? 90)
      || (192 <=? n) && (n <=? 222) && negb (n =? 215))%N
  then [(n + 32)%N]
  else if (n =? KELVIN_SIGN)%N then [107%N]
  else if (n =? CAPITAL_I_WITH_DOT)%N then [105%N; COMBINING_DOT_ABOVE]
  else if (n =? CAPITAL_Y_WITH_DIAERESIS)%N then [255%N]
  else if (n =? CAPITAL_SHARP_S)%N then [223%N]
  else if (n =? ANGSTROM_SIGN)%N then [229%N]
  else [n].

Definition toLowerCase (s : jsstring) : jsstring := flat_map toLowerCase_unit s.

(** [Canonicalize] of the regular-expression semantics, for a pattern with
    the [i] flag and without the [u] flag: the code unit of the upper-cased
    character, unless upper-casing gives more than one code unit (U+00DF)
    or maps a code unit above 127 to one below 128 (U+0131, U+017F).  The
    Kelvin sign is a capital letter already and stays what it is. *)
Definition canonicalize (n : N) : N :=
  (if (97 <=? n) && (n <=? 122)
      || (224 <=? n) && (n <=? 254) && negb (n =? 247)
   then n - 32
   else if n =? 181 then 924
   else if n =? 255 then 376
   else n)%N.

(** Comparison of a pattern character with a text character. *)
Definition unit_matches (ignoreCase : bool) (p c : N) : bool :=
  if ignoreCase then (canonicalize p =? canonicalize c)%N
  else (p =? c)%N.

(** The literal pattern [pat] matches at the start of [s]. *)
Fixpoint matchAt (ignoreCase : bool) (pat s : jsstring) : bool :=
  match pat, s with
  | [], _ => true
  | _ :: _, [] => false
  | p :: pat', c :: s' => unit_matches ignoreCase p c && matchAt ignoreCase pat' s'
  end.

(** [String.prototype.includes]. *)
Fixpoint includes (s sub : jsstring) : bool :=
  matchAt false sub s
  || match s with
     | [] => false
     | _ :: s' => includes s' sub
     end.

(** [String.prototype.trim] removes white space and line terminators:
    TAB, LF, VT, FF, CR, SP, NBSP, U+1680, U+2000-U+200A, U+2028, U+2029,
    U+202F, U+205F, U+3000 and U+FEFF. *)
Definition isWhiteSpace (n : N) : bool :=
  ((9 <=? n) && (n <=? 13) || (n =? 32) || (n =? 160) || (n =? 5760)
   || (8192 <=? n) && (n <=? 8202) || (n =? 8232) || (n =? 8233)
   || (n =? 8239) || (n =? 8287) || (n =? 12288) || (n =? 65279))%N.

Fixpoint trimStart (s : jsstring) : jsstring :=
  match s with
  | [] => []
  | c :: s' => if isWhiteSpace c then trimStart s' else s
  end.

Definition trim (s : jsstring) : jsstring :=
  rev (trimStart (rev (trimStart s))).

End JsString.
Import JsString.

(** ** Regular expressions built by [new RegExp(keyword, 'gi')]

    The sources used by the script are the denylist terms; they are made of
    letters only and are not empty, so the pattern is the literal sequence
    of its characters. *)

Module RegExp.

Record t : Type := mk { source : jsstring; global : bool; ignoreCase : bool }.

Definition gi (keyword : jsstring) : t :=
  {| source := keyword; global := true; ignoreCase := true |}.

(** [RegExp.prototype.test] on a regular expression whose [lastIndex]
    is 0: is there a position where the pattern matches? *)
Fixpoint test (re : t) (s : jsstring) : bool :=
  matchAt (ignoreCase re) (source re) s
  || match s with
     | [] => false
     | _ :: s' => test re s'
     end.

(** The scan of [String.prototype.replace] with a global regular
    expression and a replacement without [$]: [lastIndex] restarts at 0,
    the text is read from left to right, every match is replaced and the
    scan goes on after the match.  [skip] counts the characters of the
    current match that are still to be passed over. *)
Fixpoint replace_scan (re : t) (replacement : jsstring) (skip : nat)
    (s : jsstring) : jsstring :=
  match s with
  | [] => []
  | c :: s' =>
      match skip with
      | S k => replace_scan re replacement k s'
      | O =>
          if matchAt (ignoreCase re) (source re) s
          then replacement
                 ++ replace_scan re replacement (List.length (source re) - 1) s'
          else c :: replace_scan re replacement 0 s'
      end
  end.

Definition replace (s : jsstring) (re : t) (replacement : jsstring) : jsstring :=
  replace_scan re replacement 0 s.

End RegExp.

(** ** The Denylist Matcher *)

Definition BANNED_KEYWORDS : list jsstring :=
  [ js "kill"; js "hack"; js "bomb"; js "exploit"; js "violence"; js "rape" ].

Definition REDACTED : jsstring := js "[REDACTED]".

Definition containsBannedContent (text : jsstring) : bool :=
  let lowerCaseText := toLowerCase text in
  existsb (fun keyword => includes lowerCaseText keyword) BANNED_KEYWORDS.

Record ModerationVerdict : Type :=
  { isSafe : bool; text : jsstring }.

(** The two variables the callback of [forEach] assigns. *)
Record ModerationState : Type :=
  { moderatedText : jsstring; foundBannedContent : bool }.

Definition moderate_keyword (st : ModerationState) (keyword : jsstring)
    : ModerationState :=
  let regex := RegExp.gi keyword in
  if RegExp.test regex (moderatedText st)
  then {| moderatedText := RegExp.replace (moderatedText st) regex REDACTED;
          foundBannedContent := true |}
  else st.

Definition moderateOutput (text : jsstring) : ModerationVerdict :=
  let st := fold_left moderate_keyword BANNED_KEYWORDS
              {| moderatedText := text; foundBannedContent := false |} in
  {| isSafe := negb (foundBannedContent st); text := moderatedText st |}.

(** ** Values, errors and effects of the script *)

Inductive value : Type :=
  | VUndefined
  | VString (s : jsstring).

Inductive error : Type :=
  | Error (message : jsstring)
  | ReferenceError (identifier : jsstring)
  | TypeError (message : jsstring).

(** [error.message] *)
Definition message (e : error) : jsstring :=
  match e with
  | Error m => m
  | ReferenceError x => x ++ js " is not defined"
  | TypeError m => m
  end.

Record ChatMessage : Type := { role : jsstring; content : jsstring }.

Record RequestBody : Type :=
  { model : jsstring;
    messages : list ChatMessage;
    max_tokens : N;
    temperature : N * N  (* the decimal literal 0.7 as 7 over 10 *) }.

Record RequestInit : Type :=
  { method : jsstring;
    headers : list (jsstring * jsstring);
    body : RequestBody  (* the argument of JSON.stringify *) }.

(** What the transport answers to a request.  [json_content] is the value
    of [data.choices?.[0]?.message?.content] in the parsed body, [None]
    when the path is absent. *)
Record Response : Type :=
  { ok : bool;
    status : N;
    body_text : jsstring;
    json_content : option jsstring }.

(** The observable actions of a run, in the order they happen. *)
Inductive event : Type :=
  | ConsoleLog (args : list value)
  | ConsoleError (args : list value)
  | CreateInterface
  | Question (query : jsstring)
  | Close
  | Fetch (url : jsstring) (init : RequestInit)
  | Call (callee : jsstring) (argument : jsstring).

Inductive outcome (A : Type) : Type :=
  | Returned (a : A)
  | Thrown (e : error).
Arguments Returned {A} a.
Arguments Thrown {A} e.

(** A computation: the actions performed, then how it completed. *)
Definition M (A : Type) : Type := (list event * outcome A)%type.

Definition ret {A} (a : A) : M A := ([], Returned a).
Definition throw {A} (e : error) : M A := ([], Thrown e).
Definition emit (ev : event) : M unit := ([ev], Returned tt).

Definition bind {A B} (c : M A) (k : A -> M B) : M B :=
  match c with
  | (tr, Returned a) => let (tr', o) := k a in (tr ++ tr', o)
  | (tr, Thrown e) => (tr, Thrown e)
  end.

Definition try_catch {A} (c : M A) (handler : error -> M A) : M A :=
  match c with
  | (tr, Returned a) => (tr, Returned a)
  | (tr, Thrown e) => let (tr', o) := handler e in (tr ++ tr', o)
  end.

Definition try_finally {A} (c : M A) (finalizer : M unit) : M A :=
  let (tr, o) := c in
  match finalizer with
  | (tr', Returned _) => (tr ++ tr', o)
  | (tr', Thrown e) => (tr ++ tr', Thrown e)
  end.

Declare Scope js_scope.
Delimit Scope js_scope with js.
Notation "x <- c ;; k" := (bind c (fun x => k))
  (at level 61, c at next level, right associativity) : js_scope.
Notation "c ;; k" := (bind c (fun _ => k))
  (at level 61, right associativity) : js_scope.
Open Scope js_scope.

Definition trace {A} (c : M A) : list event := fst c.
Definition result {A} (c : M A) : outcome A := snd c.

Definition console_log (s : jsstring) : M unit := emit (ConsoleLog [VString s]).

(** ** Constants and messages of the script *)

Definition nl : string := String (ascii_of_nat 10) EmptyString.
Definition dq : string := String (ascii_of_nat 34) EmptyString.

Open Scope string_scope.

Definition msg_sending : jsstring :=
  js (nl ++ "🤖 Sending request to OpenRouter (DeepSeek model)..." ++ nl).
Definition msg_no_content : jsstring :=
  js ("No response content from OpenRouter").
Definition msg_error_calling : jsstring :=
  js ("❌ Error calling OpenRouter:").
Definition banner_top : jsstring :=
  js ("╔════════════════════════════════════════╗").
Definition banner_title : jsstring :=
  js ("║   AI Chat with Moderation System      ║").
Definition banner_bottom : jsstring :=
  js ("╚════════════════════════════════════════╝" ++ nl).
Definition msg_ask : jsstring :=
  js ("💬 Ask me anything (type your question below):" ++ nl).
Definition query_you : jsstring :=
  js ("You: ").
Definition msg_nothing_entered : jsstring :=
  js (nl ++ "⚠️  You didn't enter anything. Please try again.").
Definition msg_checking_input : jsstring :=
  js (nl ++ "🔍 Checking your input for safety...").
Definition msg_input_violated : jsstring :=
  js (nl ++ "❌ Your input violated the moderation policy.").
Definition msg_please_rephrase : jsstring :=
  js ("Please rephrase your question without harmful content." ++ nl).
Definition msg_input_safe : jsstring :=
  js ("✅ Input is safe!").
Definition msg_checking_response : jsstring :=
  js ("🔍 Checking AI response for safety...").
Definition msg_warning_redacted : jsstring :=
  js ("⚠️  Warning: Response contained inappropriate content (redacted below)" ++ nl).
Definition msg_response_safe : jsstring :=
  js ("✅ Response is safe!" ++ nl).
Definition rule : jsstring :=
  js ("═══════════════════════════════════════").
Definition msg_ai_response : jsstring :=
  js ("AI Response:").
Definition rule_nl : jsstring :=
  js ("═══════════════════════════════════════" ++ nl).
Definition msg_error_occurred : jsstring :=
  js (nl ++ "❌ An error occurred:").
Definition msg_key_not_found : jsstring :=
  js ("❌ OPENROUTER_API_KEY not found!" ++ nl ++
      "Please set it as an environment variable:" ++ nl ++
      "Windows CMD: set OPENROUTER_API_KEY=your-key-here" ++ nl ++
      "Windows PowerShell: $env:OPENROUTER_API_KEY=" ++ dq ++ "your-key-here" ++ dq ++ nl ++
      "Then run the script again.").
Definition SYSTEM_PROMPT : jsstring :=
  js ("You are a helpful, friendly, and safe AI assistant. " ++ nl ++
      "Your goal is to provide accurate and constructive information." ++ nl ++
      "Always be respectful and avoid generating harmful content.").

Definition OPENROUTER_API_URL : jsstring :=
  js "https://openrouter.ai/api/v1/chat/completions".

Close Scope string_scope.

(** [!OPENROUTER_API_KEY]: the variable of the environment is unset, or
    set to the empty string. *)
Definition key_missing (OPENROUTER_API_KEY : option jsstring) : bool :=
  match OPENROUTER_API_KEY with
  | None => true
  | Some [] => true
  | Some (_ :: _) => false
  end.

(** ** The Completion Client

    [callDeepseekAPI] as the source delimits it (lines 66-75): the two
    closing braces of line 75 end the conditional and the function. *)
Definition callDeepseekAPI (OPENROUTER_API_KEY : option jsstring)
    (userInput : jsstring) : M value :=
  if key_missing OPENROUTER_API_KEY
  then throw (Error msg_key_not_found)
  else ret VUndefined.

(** The statements of lines 77-117 stand after that closing brace, at
    module level, where [userInput] is not declared and where the
    [return] of line 112 belongs to no function.  [requestStatements] is
    what they do for a given resolution of the identifier [userInput]
    (here [None] is an unresolved identifier) and a given answer of the
    transport, the [return] read as the value they end with; no function
    of the module runs them. *)

Definition decimal (n : N) : jsstring :=
  js (NilEmpty.string_of_uint (N.to_uint n)).

Definition requestBody (userInput : jsstring) : RequestBody :=
  {| model := js "deepseek/deepseek-chat";
     messages := [ {| role := js "system"; content := SYSTEM_PROMPT |};
                   {| role := js "user"; content := userInput |} ];
     max_tokens := 500;
     temperature := (7, 10)%N |}.

Definition requestInit (key : jsstring) (userInput : jsstring) : RequestInit :=
  {| method := js "POST";
     headers := [ (js "Content-Type", js "application/json");
                  (js "Authorization", js "Bearer " ++ key);
                  (js "HTTP-Referer", js "http://localhost:3000");
                  (js "X-Title", js "AI Chat Moderation App") ];
     body := requestBody userInput |}.

(** The text interpolated for [${OPENROUTER_API_KEY}]. *)
Definition key_text (OPENROUTER_API_KEY : option jsstring) : jsstring :=
  match OPENROUTER_API_KEY with
  | Some k => k
  | None => js "undefined"
  end.

(** [fetch]: the request goes out, and the transport answers with a
    response or fails. *)
Definition fetch (transport : RequestInit -> outcome Response)
    (url : jsstring) (init : RequestInit) : M Response :=
  ([Fetch url init], transport init).

Definition requestStatements (OPENROUTER_API_KEY : option jsstring)
    (userInput : option jsstring) (transport : RequestInit -> outcome Response)
    : M value :=
  console_log msg_sending ;;
  match userInput with
  | None => throw (ReferenceError (js "userInput"))
  | Some userInput =>
      let init := requestInit (key_text OPENROUTER_API_KEY) userInput in
      try_catch
        (response <- fetch transport OPENROUTER_API_URL init ;;
         if negb (ok response)
         then
           let errorData := body_text response in
           throw (Error (js "OpenRouter API Error (" ++ decimal (status response)
                           ++ js "): " ++ errorData))
         else
           match json_content response with
           | None => throw (Error msg_no_content)
           | Some [] => throw (Error msg_no_content)
           | Some aiMessage => ret (VString (trim aiMessage))
           end)
        (fun error =>
           emit (ConsoleError [VString msg_error_calling; VString (message error)]) ;;
           throw error)
  end.

(** ** The Orchestrator *)

(** [moderateOutput] on what the client handed back.  [regex.test]
    converts its argument to a string, so for [undefined] the working copy
    stays [undefined] as long as no term matches the text "undefined";
    a match would call [replace] on [undefined]. *)
Definition moderateOutput_value (aiResponse : value) : M (bool * value) :=
  match aiResponse with
  | VString t =>
      let v := moderateOutput t in ret (isSafe v, VString (text v))
  | VUndefined =>
      if existsb (fun keyword => RegExp.test (RegExp.gi keyword) (js "undefined"))
           BANNED_KEYWORDS
      then throw (TypeError (js "Cannot read properties of undefined (reading 'replace')"))
      else ret (true, VUndefined)
  end.

(** [main], for what the free identifier [callOpenRouter] resolves to
    ([None]: no such binding) and the line the user types at the prompt. *)
Definition main (callOpenRouter : option (jsstring -> M value))
    (typed : jsstring) : M unit :=
  console_log banner_top ;;
  console_log banner_title ;;
  console_log banner_bottom ;;
  emit CreateInterface ;;
  try_finally
    (try_catch
       (console_log msg_ask ;;
        userPrompt <- (emit (Question query_you) ;; ret typed) ;;
        match trim userPrompt with
        | [] => console_log msg_nothing_entered
        | _ :: _ =>
            console_log msg_checking_input ;;
            if containsBannedContent userPrompt
            then
              console_log msg_input_violated ;;
              console_log msg_please_rephrase
            else
              console_log msg_input_safe ;;
              aiResponse <-
                match callOpenRouter with
                | None => throw (ReferenceError (js "callOpenRouter"))
                | Some f => emit (Call (js "callOpenRouter") userPrompt) ;; f userPrompt
                end ;;
              console_log msg_checking_response ;;
              moderationResult <- moderateOutput_value aiResponse ;;
              (if negb (fst moderationResult)
               then console_log msg_warning_redacted
               else console_log msg_response_safe) ;;
              console_log rule ;;
              console_log msg_ai_response ;;
              console_log rule ;;
              emit (ConsoleLog [snd moderationResult]) ;;
              console_log rule_nl
        end)
       (fun error =>
          emit (ConsoleError [VString msg_error_occurred; VString (message error)])))
    (emit Close).

(** The module itself declares [callDeepseekAPI] and no [callOpenRouter]. *)
Definition module_callOpenRouter : option (jsstring -> M value) := None.


(** ** Notions used by the statements *)

(** [m] equals the term [kw] case-insensitively: both have the same
    lower-case form. *)
Definition ci_equal (m kw : jsstring) : Prop := toLowerCase m = toLowerCase kw.

(** The term [kw] occurs in [s] in some case variant. *)
Definition Occurs (kw s : jsstring) : Prop :=
  exists pre m post, s = pre ++ m ++ post /\ ci_equal m kw.

(** [m] equals [kw] for a regular expression with the [i] flag. *)
Definition i_equal (m kw : jsstring) : Prop :=
  map canonicalize m = map canonicalize kw.

(** The regular expression of the term [kw] finds a match in [s]. *)
Definition Found (kw s : jsstring) : Prop :=
  exists pre m post, s = pre ++ m ++ post /\ i_equal m kw.

(** [Redacts s t]: [t] is [s] with some disjoint matches of denylist
    terms each replaced by the marker, and every other character kept in
    place. *)
Inductive Redacts : jsstring -> jsstring -> Prop :=
  | Redacts_nil : Redacts [] []
  | Redacts_keep c s t : Redacts s t -> Redacts (c :: s) (c :: t)
  | Redacts_cut m kw s t :
      In kw BANNED_KEYWORDS -> i_equal m kw -> Redacts s t ->
      Redacts (m ++ s) (REDACTED ++ t).

(** One redaction of [moderateOutput]: all matches of one term. *)
Definition redact (kw s : jsstring) : jsstring :=
  RegExp.replace s (RegExp.gi kw) REDACTED.

(** What holds of the two variables of [moderateOutput] once the terms
    [done] have been gone through, for the text [input] it was given. *)
Definition moderation_inv (input : jsstring) (done : list jsstring)
    (st : ModerationState) : Prop :=
  Redacts input (moderatedText st)
  /\ (forall k, In k done -> ~ Found k (moderatedText st))
  /\ (foundBannedContent st = false ->
      moderatedText st = input /\ forall k, In k done -> ~ Found k input)
  /\ (foundBannedContent st = true -> exists k, In k done /\ Found k input).

Definition is_lower_letter (n : N) : bool := ((97 <=? n) && (n <=? 122))%N.

Definition lower_letters (s : jsstring) : bool := forallb is_lower_letter s.

Definition is_fetch (ev : event) : bool :=
  match ev with Fetch _ _ => true | _ => false end.

(** An action on the side of the remote service: the call of the client
    or a request on the network. *)
Definition is_remote (ev : event) : bool :=
  match ev with
  | Call _ _ => true
  | Fetch _ _ => true
  | _ => false
  end.

(** What every run of [main] does up to the answer of the user. *)
Definition opening : list event :=
  [ ConsoleLog [VString banner_top];
    ConsoleLog [VString banner_title];
    ConsoleLog [VString banner_bottom];
    CreateInterface;
    ConsoleLog [VString msg_ask];
    Question query_you ].

(** The display of a verdict (lines 153-163). *)
Definition display (v : ModerationVerdict) : list event :=
  [ ConsoleLog [VString (if isSafe v then msg_response_safe
                         else msg_warning_redacted)];
    ConsoleLog [VString rule];
    ConsoleLog [VString msg_ai_response];
    ConsoleLog [VString rule];
    ConsoleLog [VString (text v)];
    ConsoleLog [VString rule_nl] ].

(** Inputs used by the examples. *)
Definition sample_key : jsstring := js "sk-or-v1-test".
Definition sample_question : jsstring := js "What is the capital of France?".
Definition sample_reply : jsstring := js "Violence is never the answer".
Definition sample_client (userInput : jsstring) : M value :=
  emit (Fetch OPENROUTER_API_URL (requestInit sample_key userInput)) ;;
  ret (VString sample_reply).
Definition overloaded : Response :=
  {| ok := false; status := 500; body_text := js "server overloaded";
     json_content := None |}.
Definition completed : Response :=
  {| ok := true; status := 200; body_text := js "{...}";
     json_content := Some (js "  Paris is the capital of France. ") |}.
Definition no_content : Response :=
  {| ok := true; status := 200; body_text := js "{}"; json_content := None |}.

(** "Kill" written with the Kelvin sign, alone and after a plain "kill". *)
Definition kelvin_kill : jsstring := KELVIN_SIGN :: js "ill".
Definition kill_kelvin_kill : jsstring := js "kill " ++ kelvin_kill.

(** * Properties *)

(** ** Code units *)

Ltac unit_cases :=
  repeat match goal with
         | |- context [(?a <=? ?b)%N] => destruct (N.leb_spec a b)
         | |- context [(?a =? ?b)%N] => destruct (N.eqb_spec a b)
         | |- _ => progress cbn [andb orb negb]
         end.

Lemma lower_letter_bounds (p : N) :
  is_lower_letter p = true -> (97 <= p <= 122)%N.
Proof.
  unfold is_lower_letter. intros H. apply andb_true_iff in H as [H1 H2].
  apply N.leb_le in H1, H2. lia.
Qed.

(** With the [i] flag a letter of a term matches itself and its capital. *)
Lemma canonicalize_letter (p c : N) :
  is_lower_letter p = true ->
  canonicalize c = canonicalize p <-> c = p \/ c = (p - 32)%N.
Proof.
  intros Hp. apply lower_letter_bounds in Hp.
  unfold canonicalize. unit_cases; lia.
Qed.

Lemma toLowerCase_unit_letter (p c : N) :
  is_lower_letter p = true ->
  c = p \/ c = (p - 32)%N -> toLowerCase_unit c = [p].
Proof.
  intros Hp Hc. apply lower_letter_bounds in Hp.
  unfold toLowerCase_unit, KELVIN_SIGN, CAPITAL_I_WITH_DOT,
    CAPITAL_Y_WITH_DIAERESIS, CAPITAL_SHARP_S, ANGSTROM_SIGN.
  unit_cases; try lia; f_equal; lia.
Qed.

Lemma toLowerCase_unit_cases (c : N) :
  (exists y, toLowerCase_unit c = [y])
  \/ toLowerCase_unit c = [105%N; COMBINING_DOT_ABOVE].
Proof.
  unfold toLowerCase_unit. unit_cases; eauto.
Qed.

Lemma toLowerCase_lower (s : jsstring) :
  lower_letters s = true -> toLowerCase s = s.
Proof.
  induction s as [|c s IH]; simpl; intros H; [reflexivity|].
  apply andb_true_iff in H as [Hc Hs].
  rewrite (toLowerCase_unit_letter c c Hc) by now left.
  simpl. now rewrite IH.
Qed.

Lemma toLowerCase_app (a b : jsstring) :
  toLowerCase (a ++ b) = toLowerCase a ++ toLowerCase b.
Proof. apply flat_map_app. Qed.

Lemma i_equal_length (m kw : jsstring) :
  i_equal m kw -> List.length m = List.length kw.
Proof.
  unfold i_equal. intros H. apply (f_equal (@List.length N)) in H.
  now rewrite !length_map in H.
Qed.

Lemma i_equal_positive (m kw : jsstring) :
  kw <> [] -> i_equal m kw -> 0 < List.length m.
Proof.
  intros Hne Hm. rewrite (i_equal_length _ _ Hm).
  destruct kw; [congruence | simpl; lia].
Qed.

(** What the [i] flag identifies with a term is a case variant of it. *)
Lemma i_equal_ci_equal (m kw : jsstring) :
  lower_letters kw = true -> i_equal m kw -> ci_equal m kw.
Proof.
  unfold i_equal, ci_equal. intros Hl. rewrite (toLowerCase_lower kw Hl).
  revert m. induction kw as [|p kw IH]; intros [|c m] H; try discriminate.
  - reflexivity.
  - simpl in Hl. apply andb_true_iff in Hl as [Hp Hl].
    simpl in H. injection H as Hc Hm.
    apply (canonicalize_letter p c Hp) in Hc.
    simpl. rewrite (toLowerCase_unit_letter p c Hp Hc). simpl.
    f_equal. now apply IH.
Qed.

(** ** Matching at a position *)

Lemma matchAt_exact (pat s : jsstring) :
  matchAt false pat s = true <-> exists post, s = pat ++ post.
Proof.
  revert s. induction pat as [|p pat IH]; intros s.
  - split; [intros _; now exists s | reflexivity].
  - destruct s as [|c s]; simpl.
    + split; [discriminate | intros (post & E); discriminate].
    + rewrite andb_true_iff, IH, N.eqb_eq. split.
      * intros (-> & post & ->). now exists post.
      * intros (post & E). injection E as -> ->. split; [reflexivity|].
        now exists post.
Qed.

Lemma matchAt_i (kw s : jsstring) :
  matchAt true kw s = true <-> exists m post, s = m ++ post /\ i_equal m kw.
Proof.
  unfold i_equal. revert s. induction kw as [|p kw IH]; intros s.
  - split; [intros _; now exists [], s|reflexivity].
  - destruct s as [|c s]; simpl.
    + split; [discriminate|]. intros (m & post & E & H).
      destruct m; discriminate.
    + rewrite andb_true_iff, IH, N.eqb_eq. split.
      * intros (Hc & m & post & -> & Hm). exists (c :: m), post.
        simpl. now rewrite Hm, Hc.
      * intros (m & post & E & Hm). destruct m as [|c' m]; [discriminate|].
        simpl in E, Hm. injection E as -> ->. injection Hm as Hc Hm.
        split; [congruence|]. now exists m, post.
Qed.

(** ** [test] and [includes] *)

Lemma Found_cons (kw : jsstring) (c : N) (s : jsstring) :
  Found kw (c :: s) <->
  (exists m post, c :: s = m ++ post /\ i_equal m kw) \/ Found kw s.
Proof.
  split.
  - intros (pre & m & post & E & Hm). destruct pre as [|c' pre].
    + left. now exists m, post.
    + right. injection E as _ E. now exists pre, m, post.
  - intros [(m & post & E & Hm) | (pre & m & post & E & Hm)].
    + now exists [], m, post.
    + exists (c :: pre), m, post. now rewrite E.
Qed.

Lemma test_Found (kw s : jsstring) :
  RegExp.test (RegExp.gi kw) s = true <-> Found kw s.
Proof.
  induction s as [|c s IH].
  - simpl. rewrite orb_false_r, matchAt_i. split.
    + intros (m & post & E & Hm). now exists [], m, post.
    + intros (pre & m & post & E & Hm).
      destruct pre; [|discriminate]. now exists m, post.
  - simpl. rewrite orb_true_iff, IH, Found_cons, <- matchAt_i. reflexivity.
Qed.

Lemma includes_split (s sub : jsstring) :
  includes s sub = true <-> exists pre post, s = pre ++ sub ++ post.
Proof.
  induction s as [|c s IH]; simpl.
  - rewrite orb_false_r, matchAt_exact. split.
    + intros (post & E). now exists [], post.
    + intros (pre & post & E). destruct pre; [|discriminate]. now exists post.
  - rewrite orb_true_iff, IH, matchAt_exact. split.
    + intros [(post & E) | (pre & post & E)].
      * now exists [], post.
      * exists (c :: pre), post. now rewrite E.
    + intros (pre & post & E). destruct pre as [|c' pre].
      * left. now exists post.
      * right. injection E as _ E. now exists pre, post.
Qed.

(** A term read at the start of a lower-cased text stands at the start of
    the text, in some case variant.  The lower-case form of the capital I
    with dot takes two code units; a term that does not end in i cannot
    stop between them. *)
Lemma lowered_prefix (kw s rest : jsstring) :
  lower_letters kw = true -> last kw 0%N <> 105%N ->
  toLowerCase s = kw ++ rest ->
  exists m post, s = m ++ post /\ toLowerCase m = kw.
Proof.
  revert s. induction kw as [|p kw IH]; intros s Hl Hlast E.
  - now exists [], s.
  - simpl in Hl. apply andb_true_iff in Hl as [Hp Hl].
    destruct s as [|c s]; [discriminate|].
    assert (Hlast' : last kw 0%N <> 105%N).
    { destruct kw; [discriminate | exact Hlast]. }
    simpl in E.
    destruct (toLowerCase_unit_cases c) as [(y & Hy) | Hdot].
    + rewrite Hy in E. injection E as -> E.
      destruct (IH s Hl Hlast' E) as (m & post & -> & Hm).
      exists (c :: m), post. simpl. now rewrite Hy, Hm.
    + rewrite Hdot in E. injection E as <- E.
      destruct kw as [|q kw]; [now elim Hlast|].
      injection E as <- _. simpl in Hl. discriminate.
Qed.

Lemma lowered_split (kw s a b : jsstring) :
  lower_letters kw = true -> last kw 0%N <> 105%N ->
  toLowerCase s = a ++ kw ++ b -> Occurs kw s.
Proof.
  intros Hl Hlast. unfold Occurs, ci_equal. rewrite (toLowerCase_lower kw Hl).
  destruct kw as [|q kw']; [now exists [], [], s|].
  remember (q :: kw') as kw eqn:Hkw.
  revert a. induction s as [|c s IH]; intros a E.
  - subst kw. destruct a; discriminate.
  - destruct a as [|x a].
    + destruct (lowered_prefix kw (c :: s) b Hl Hlast E) as (m & post & -> & Hm).
      now exists [], m, post.
    + assert (Hs : exists a', toLowerCase s = a' ++ kw ++ b).
      { simpl in E.
        destruct (toLowerCase_unit_cases c) as [(y & Hy) | Hdot].
        - rewrite Hy in E. injection E as _ E. now exists a.
        - rewrite Hdot in E. injection E as _ E.
          destruct a as [|x' a].
          + subst kw. injection E as <- _. simpl in Hl. discriminate.
          + injection E as _ E. now exists a. }
      destruct Hs as (a' & Hs).
      destruct (IH a' Hs) as (pre & m & post & -> & Hm).
      now exists (c :: pre), m, post.
Qed.

Lemma includes_lowered_Occurs (kw s : jsstring) :
  lower_letters kw = true -> last kw 0%N <> 105%N ->
  includes (toLowerCase s) kw = true <-> Occurs kw s.
Proof.
  intros Hl Hlast. rewrite includes_split. split.
  - intros (a & b & E). now apply lowered_split with a b.
  - intros (pre & m & post & -> & Hm). unfold ci_equal in Hm.
    rewrite (toLowerCase_lower kw Hl) in Hm.
    exists (toLowerCase pre), (toLowerCase post).
    now rewrite !toLowerCase_app, Hm.
Qed.

(** ** The denylist *)

Ltac each_keyword H :=
  repeat (destruct H as [<- | H]; [|]); [.. | destruct H].

Lemma banned_lower (kw : jsstring) :
  In kw BANNED_KEYWORDS -> lower_letters kw = true.
Proof. intros H. each_keyword H; reflexivity. Qed.

Lemma banned_nonempty (kw : jsstring) :
  In kw BANNED_KEYWORDS -> kw <> [].
Proof. intros H. each_keyword H; discriminate. Qed.

Lemma banned_last (kw : jsstring) :
  In kw BANNED_KEYWORDS -> last kw 0%N <> 105%N.
Proof. intros H. each_keyword H; discriminate. Qed.

Lemma containsBannedContent_true (text : jsstring) :
  containsBannedContent text = true <->
  exists kw, In kw BANNED_KEYWORDS /\ Occurs kw text.
Proof.
  unfold containsBannedContent. rewrite existsb_exists.
  split; intros (kw & Hin & H); exists kw; split; try assumption;
    now apply (includes_lowered_Occurs kw text (banned_lower kw Hin)
                 (banned_last kw Hin)).
Qed.

(** Whatever the regular expression of a term finds is an occurrence of
    the term. *)
Lemma Found_Occurs (kw s : jsstring) :
  lower_letters kw = true -> Found kw s -> Occurs kw s.
Proof.
  intros Hl (pre & m & post & E & Hm). exists pre, m, post.
  split; [assumption | now apply i_equal_ci_equal].
Qed.

(** ** The scan of [replace] *)

Lemma replace_scan_skip (re : RegExp.t) (r : jsstring) (n : nat) (s : jsstring) :
  RegExp.replace_scan re r n s = RegExp.replace_scan re r 0 (skipn n s).
Proof.
  revert n. induction s as [|c s IH]; intros n.
  - now rewrite skipn_nil.
  - destruct n as [|n]; [reflexivity|]. simpl skipn. rewrite <- IH. reflexivity.
Qed.

Lemma redact_nil (kw : jsstring) : redact kw [] = [].
Proof. reflexivity. Qed.

Lemma redact_match (kw m post : jsstring) :
  kw <> [] -> i_equal m kw ->
  redact kw (m ++ post) = REDACTED ++ redact kw post.
Proof.
  intros Hne Hm.
  assert (Hmatch : matchAt true kw (m ++ post) = true)
    by (apply matchAt_i; now exists m, post).
  pose proof (i_equal_length _ _ Hm) as Hlen.
  destruct m as [|c m]; [destruct kw; [congruence | discriminate]|].
  unfold redact, RegExp.replace. simpl RegExp.replace_scan.
  simpl in Hmatch. rewrite Hmatch. f_equal.
  rewrite replace_scan_skip. f_equal. simpl in Hlen. rewrite <- Hlen.
  simpl. rewrite Nat.sub_0_r, skipn_app, skipn_all, Nat.sub_diag. reflexivity.
Qed.

Lemma redact_nomatch (kw : jsstring) (c : N) (s : jsstring) :
  matchAt true kw (c :: s) = false ->
  redact kw (c :: s) = c :: redact kw s.
Proof.
  intros H. unfold redact, RegExp.replace. simpl RegExp.replace_scan.
  simpl in H. now rewrite H.
Qed.

(** ** The marker against the denylist *)

Lemma test_marker (kw t : jsstring) :
  In kw BANNED_KEYWORDS ->
  RegExp.test (RegExp.gi kw) (REDACTED ++ t) = RegExp.test (RegExp.gi kw) t.
Proof. intros H. each_keyword H; reflexivity. Qed.

Lemma redact_marker (kw t : jsstring) :
  In kw BANNED_KEYWORDS ->
  redact kw (REDACTED ++ t) = REDACTED ++ redact kw t.
Proof. intros H. each_keyword H; reflexivity. Qed.

(** The marker contains no term, in the eyes of either matcher. *)
Lemma marker_clean (kw : jsstring) :
  In kw BANNED_KEYWORDS -> ~ Occurs kw REDACTED.
Proof.
  intros H Hocc.
  apply (includes_lowered_Occurs kw REDACTED (banned_lower kw H)
           (banned_last kw H)) in Hocc.
  each_keyword H; discriminate.
Qed.

Lemma Found_marker (kw t : jsstring) :
  In kw BANNED_KEYWORDS -> Found kw (REDACTED ++ t) -> Found kw t.
Proof.
  intros H Hf. apply test_Found. rewrite <- test_marker by assumption.
  now apply test_Found.
Qed.

Lemma match_no_bracket (m kw : jsstring) :
  lower_letters kw = true -> i_equal m kw ->
  Forall (fun c => c <> 91%N) m.
Proof.
  unfold i_equal. revert m.
  induction kw as [|p kw IH]; intros [|c m] Hl H; try discriminate;
    constructor.
  - simpl in Hl. apply andb_true_iff in Hl as [Hp _].
    simpl in H. injection H as Hc _.
    apply (canonicalize_letter p c Hp) in Hc.
    apply lower_letter_bounds in Hp. lia.
  - simpl in Hl. apply andb_true_iff in Hl as [_ Hl].
    simpl in H. injection H as _ H. now apply IH.
Qed.

(** ** The redaction relation *)

Lemma Redacts_refl (s : jsstring) : Redacts s s.
Proof. induction s; now constructor. Qed.

Lemma Redacts_prefix (m rest s : jsstring) :
  Forall (fun c => c <> 91%N) m ->
  Redacts s (m ++ rest) ->
  exists srest, s = m ++ srest /\ Redacts srest rest.
Proof.
  intros Hm. revert s. induction Hm as [|x m Hx Hm IH]; intros s H.
  - now exists s.
  - simpl in H. inversion H as [| c s1 t1 H1 | m0 kw0 s1 t1 Hin Hci H1 E1 E2 ].
    + subst. apply IH in H1 as (srest & -> & Hr). now exists srest.
    + congruence.
Qed.

Lemma Redacts_redact_bounded (kw : jsstring) (n : nat) :
  In kw BANNED_KEYWORDS ->
  forall t, List.length t <= n -> forall s, Redacts s t -> Redacts s (redact kw t).
Proof.
  intros Hkw. pose proof (banned_lower kw Hkw) as Hl.
  pose proof (banned_nonempty kw Hkw) as Hne.
  induction n as [|n IH]; intros t Hlen s H.
  - destruct t; [|simpl in Hlen; lia]. now rewrite redact_nil.
  - inversion H as [| c s1 t1 H1 | m0 kw0 s1 t1 Hin Hci H1 ]; subst.
    + constructor.
    + destruct (matchAt true kw (c :: t1)) eqn:Hmatch.
      * apply matchAt_i in Hmatch as (m & post & E & Hm).
        rewrite E in H |- *.
        apply Redacts_prefix in H as (srest & -> & Hr);
          [|now apply match_no_bracket with kw].
        rewrite redact_match by assumption.
        apply Redacts_cut with kw; try assumption.
        apply IH; [|assumption].
        pose proof (i_equal_positive _ _ Hne Hm).
        apply (f_equal (@List.length N)) in E.
        rewrite length_app in E. simpl in E, Hlen. lia.
      * rewrite redact_nomatch by assumption. constructor.
        apply IH; [simpl in Hlen; lia | assumption].
    + rewrite redact_marker by assumption.
      apply Redacts_cut with kw0; try assumption.
      apply IH; [|assumption]. rewrite length_app in Hlen.
      change (List.length REDACTED) with 10 in Hlen. lia.
Qed.

Lemma Redacts_redact (kw s t : jsstring) :
  In kw BANNED_KEYWORDS -> Redacts s t -> Redacts s (redact kw t).
Proof. intros Hkw. now apply Redacts_redact_bounded with (List.length t). Qed.

Lemma Found_app_r (kw a s : jsstring) : Found kw s -> Found kw (a ++ s).
Proof.
  intros (pre & m & post & -> & Hm). exists (a ++ pre), m, post.
  now rewrite <- app_assoc.
Qed.

(** A match found after a redaction was there before it. *)
Lemma Redacts_Found (kw s t : jsstring) :
  In kw BANNED_KEYWORDS -> Redacts s t -> Found kw t -> Found kw s.
Proof.
  intros Hkw H. pose proof (banned_lower kw Hkw) as Hl.
  induction H as [| c s t H IH | m0 kw0 s t Hin Hci H IH ]; intros Hf.
  - assumption.
  - apply Found_cons in Hf as [(m & post & E & Hm) | Hf].
    + assert (Hr : Redacts (c :: s) (m ++ post))
        by (rewrite <- E; now constructor).
      apply Redacts_prefix in Hr as (srest & -> & _);
        [|now apply match_no_bracket with kw].
      now exists [], m, srest.
    + apply Found_cons. right. now apply IH.
  - apply Found_app_r, IH. now apply Found_marker.
Qed.

(** After the redaction of a term its regular expression finds nothing. *)
Lemma redact_total_bounded (kw : jsstring) (n : nat) :
  In kw BANNED_KEYWORDS ->
  forall s, List.length s <= n -> ~ Found kw (redact kw s).
Proof.
  intros Hkw. pose proof (banned_lower kw Hkw) as Hl.
  pose proof (banned_nonempty kw Hkw) as Hne.
  induction n as [|n IH]; intros s Hlen Hf.
  - destruct s; [|simpl in Hlen; lia]. rewrite redact_nil in Hf.
    apply test_Found in Hf. destruct kw; [congruence | discriminate].
  - destruct s as [|c s]; [apply (IH [] ltac:(simpl; lia) Hf)|].
    destruct (matchAt true kw (c :: s)) eqn:Hmatch.
    + apply matchAt_i in Hmatch as (m & post & E & Hm).
      rewrite E, redact_match in Hf by assumption.
      apply Found_marker in Hf; [|assumption].
      apply (IH post); [|assumption].
      pose proof (i_equal_positive _ _ Hne Hm).
      apply (f_equal (@List.length N)) in E.
      rewrite length_app in E. simpl in E, Hlen. lia.
    + rewrite redact_nomatch in Hf by assumption.
      apply Found_cons in Hf as [(m & post & E & Hm) | Hf].
      * assert (Hr : Redacts (c :: s) (m ++ post)).
        { rewrite <- E. constructor. apply Redacts_redact; [assumption|].
          apply Redacts_refl. }
        apply Redacts_prefix in Hr as (srest & E' & _);
          [|now apply match_no_bracket with kw].
        assert (matchAt true kw (c :: s) = true)
          by (apply matchAt_i; now exists m, srest).
        congruence.
      * apply (IH s); [simpl in Hlen; lia | assumption].
Qed.

Lemma redact_total (kw s : jsstring) :
  In kw BANNED_KEYWORDS -> ~ Found kw (redact kw s).
Proof. intros Hkw. now apply redact_total_bounded with (List.length s). Qed.

Lemma Redacts_same_or_marker (s t : jsstring) :
  Redacts s t -> t = s \/ exists a b, t = a ++ REDACTED ++ b.
Proof.
  induction 1 as [| c s t H IH | m kw s t Hin Hci H IH ].
  - now left.
  - destruct IH as [-> | (a & b & ->)]; [now left | right].
    now exists (c :: a), b.
  - right. now exists [], t.
Qed.

(** ** The loop of [moderateOutput] *)

Lemma moderation_inv_step (input : jsstring) (done : list jsstring)
    (st : ModerationState) (k : jsstring) :
  In k BANNED_KEYWORDS ->
  (forall k', In k' done -> In k' BANNED_KEYWORDS) ->
  moderation_inv input done st ->
  moderation_inv input (done ++ [k]) (moderate_keyword st k).
Proof.
  intros Hk Hdone (HR & Hclean & Hsafe & Hfound).
  unfold moderate_keyword.
  destruct (RegExp.test (RegExp.gi k) (moderatedText st)) eqn:Htest.
  - apply test_Found in Htest.
    fold (redact k (moderatedText st)). repeat split; simpl.
    + now apply Redacts_redact.
    + intros k' Hin Hf. apply in_app_or in Hin as [Hin | [<- | []]].
      * apply (Hclean k' Hin).
        apply Redacts_Found with (redact k (moderatedText st)); auto.
        apply Redacts_redact; [assumption | apply Redacts_refl].
      * now apply redact_total in Hf.
    + discriminate.
    + discriminate.
    + intros _. exists k. split; [apply in_or_app; right; now left|].
      now apply Redacts_Found with (moderatedText st).
  - assert (Hno : ~ Found k (moderatedText st)).
    { intros Hf. apply test_Found in Hf. congruence. }
    repeat split.
    + assumption.
    + intros k' Hin. apply in_app_or in Hin as [Hin | [<- | []]]; auto.
    + now apply Hsafe.
    + intros k' Hin. destruct (Hsafe H) as [E Hc].
      apply in_app_or in Hin as [Hin | [<- | []]]; [auto|]. now rewrite <- E.
    + intros Hf. destruct (Hfound Hf) as (k' & Hin & Hocc).
      exists k'. split; [apply in_or_app; now left | assumption].
Qed.

Lemma moderation_inv_fold (input : jsstring) (todo done : list jsstring)
    (st : ModerationState) :
  (forall k, In k (done ++ todo) -> In k BANNED_KEYWORDS) ->
  moderation_inv input done st ->
  moderation_inv input (done ++ todo) (fold_left moderate_keyword todo st).
Proof.
  revert done st. induction todo as [|k todo IH]; intros done st Hall Hinv.
  - now rewrite app_nil_r.
  - simpl. replace (done ++ k :: todo) with ((done ++ [k]) ++ todo) in *
      by now rewrite <- app_assoc.
    apply IH; [assumption|]. apply moderation_inv_step; [| |assumption].
    + apply Hall, in_or_app. left. apply in_or_app. right. now left.
    + intros k' Hin. apply Hall, in_or_app. left. apply in_or_app. now left.
Qed.

Lemma moderation_inv_final (input : jsstring) :
  moderation_inv input BANNED_KEYWORDS
    (fold_left moderate_keyword BANNED_KEYWORDS
       {| moderatedText := input; foundBannedContent := false |}).
Proof.
  apply (moderation_inv_fold input BANNED_KEYWORDS []); [auto|].
  repeat split; simpl; try discriminate; try tauto. apply Redacts_refl.
Qed.

(** A text in which no regular expression of the denylist finds a match
    comes back as it is, marked safe. *)
Lemma moderateOutput_nothing_found (input : jsstring) :
  (forall kw, In kw BANNED_KEYWORDS -> ~ Found kw input) ->
  moderateOutput input = {| isSafe := true; text := input |}.
Proof.
  intros Hclean. destruct (moderation_inv_final input) as (_ & _ & Hsafe & Hfound).
  unfold moderateOutput.
  destruct (foundBannedContent _) eqn:Hf.
  - destruct (Hfound eq_refl) as (k & Hin & Hocc). now apply Hclean in Hocc.
  - destruct (Hsafe eq_refl) as [-> _]. reflexivity.
Qed.

(** In the text of a verdict no regular expression of the denylist finds
    a match any more. *)
Lemma moderateOutput_leaves_no_match (input kw : jsstring) :
  In kw BANNED_KEYWORDS -> ~ Found kw (text (moderateOutput input)).
Proof.
  intros Hin. destruct (moderation_inv_final input) as (_ & Hclean & _).
  now apply Hclean.
Qed.

(** A text in which some regular expression of the denylist finds a match
    is marked unsafe; its verdict carries the input with matches replaced
    by the marker and every other character kept. *)
Lemma moderateOutput_redacts_matches (input : jsstring) :
  (exists kw, In kw BANNED_KEYWORDS /\ Found kw input) ->
  containsBannedContent input = true
  /\ isSafe (moderateOutput input) = false
  /\ Redacts input (text (moderateOutput input))
  /\ (exists a b, text (moderateOutput input) = a ++ REDACTED ++ b).
Proof.
  intros (kw & Hin & Hf).
  destruct (moderation_inv_final input) as (HR & Hclean & Hsafe & _).
  unfold moderateOutput. cbn [text isSafe].
  set (st := fold_left moderate_keyword BANNED_KEYWORDS _) in *.
  repeat split.
  - apply containsBannedContent_true. exists kw. split; [assumption|].
    apply Found_Occurs; [now apply banned_lower | assumption].
  - destruct (foundBannedContent st); [reflexivity|].
    destruct (Hsafe eq_refl) as [_ Hno]. now apply Hno in Hf.
  - assumption.
  - destruct (Redacts_same_or_marker _ _ HR) as [E | Hmark]; [|assumption].
    exfalso. apply (Hclean kw Hin). now rewrite E.
Qed.

(** ** The scenarios of the matcher *)

Example moderate_violence :
  moderateOutput sample_reply
  = {| isSafe := false; text := js "[REDACTED] is never the answer" |}.
Proof. reflexivity. Qed.

Example contains_hack :
  containsBannedContent (js "how do I hack a server") = true.
Proof. reflexivity. Qed.

(** No word boundary is looked for. *)
Example contains_scrapbook :
  containsBannedContent (js "my sCRAPEd knee") = true.
Proof. reflexivity. Qed.

(** Occurrences of a term that overlap: the scan goes on after the first. *)
Example moderate_overlap :
  text (moderateOutput (js "bomBomb KiLLhack hackill"))
  = js "[REDACTED]omb [REDACTED][REDACTED] hac[REDACTED]".
Proof. reflexivity. Qed.

(** The Kelvin sign lower-cases to k, and the [i] flag does not take it
    for a K. *)
Example kelvin_lowered : toLowerCase kelvin_kill = js "kill".
Proof. reflexivity. Qed.

Example kelvin_not_matched :
  RegExp.test (RegExp.gi (js "kill")) kelvin_kill = false.
Proof. reflexivity. Qed.

Lemma kelvin_kill_Occurs : Occurs (js "kill") kelvin_kill.
Proof. exists [], kelvin_kill, []. split; reflexivity. Qed.

(** ** The Denylist Matcher: specified properties *)

(** C3 (defect of the code).  "Kill" written with the Kelvin sign is the
    term kill in a case variant, and [containsBannedContent] reports it;
    [moderateOutput] returns it as it is and marks it safe, where the
    specification wants [isSafe = false] and the occurrence replaced.  After a
    plain "kill" the text is marked unsafe, and of the two occurrences of
    the matched term only the plain one is replaced. *)
Theorem kelvin_variant_escapes_moderateOutput :
  (exists kw, In kw BANNED_KEYWORDS /\ Occurs kw kelvin_kill)
  /\ containsBannedContent kelvin_kill = true
  /\ moderateOutput kelvin_kill = {| isSafe := true; text := kelvin_kill |}
  /\ moderateOutput kill_kelvin_kill
     = {| isSafe := false; text := js "[REDACTED] " ++ kelvin_kill |}.
Proof.
  split; [|repeat split; reflexivity].
  exists (js "kill"). split; [simpl; tauto | apply kelvin_kill_Occurs].
Qed.

(** C4.  A text in which no denylist term occurs, in whatever case, is
    not reported by [containsBannedContent], and [moderateOutput] returns
    it unchanged with [isSafe = true]. *)
Theorem clean_text_passes_unchanged (input : jsstring) :
  (forall kw, In kw BANNED_KEYWORDS -> ~ Occurs kw input) ->
  containsBannedContent input = false
  /\ moderateOutput input = {| isSafe := true; text := input |}.
Proof.
  intros Hclean. split.
  - destruct (containsBannedContent input) eqn:Hc; [|reflexivity].
    apply containsBannedContent_true in Hc as (kw & Hin & Hocc).
    now apply Hclean in Hocc.
  - apply moderateOutput_nothing_found. intros kw Hin Hf.
    apply (Hclean kw Hin), Found_Occurs; [now apply banned_lower | assumption].
Qed.

Lemma clean_text_passes_unchanged_witness :
  containsBannedContent sample_question = false
  /\ moderateOutput sample_question
     = {| isSafe := true; text := sample_question |}.
Proof.
  apply (clean_text_passes_unchanged sample_question).
  intros kw Hin Hocc.
  apply (includes_lowered_Occurs kw sample_question (banned_lower kw Hin)
           (banned_last kw Hin)) in Hocc.
  each_keyword Hin; discriminate.
Defined.

(** C5 (defect of the code).  Redaction is not total: in the verdict of
    "kill" followed by "Kill" written with the Kelvin sign the second
    occurrence of the term is still there, and [containsBannedContent]
    itself reports the text of the verdict. *)
Theorem kelvin_variant_survives_redaction :
  text (moderateOutput kill_kelvin_kill) = js "[REDACTED] " ++ kelvin_kill
  /\ Occurs (js "kill") (text (moderateOutput kill_kelvin_kill))
  /\ containsBannedContent (text (moderateOutput kill_kelvin_kill)) = true.
Proof.
  split; [reflexivity|]. split; [|reflexivity].
  exists (js "[REDACTED] "), kelvin_kill, []. split; reflexivity.
Qed.

(** C6.  Moderating the text of a verdict once more finds it safe. *)
Theorem moderation_is_idempotent_on_safety (input : jsstring) :
  isSafe (moderateOutput (text (moderateOutput input))) = true.
Proof.
  rewrite moderateOutput_nothing_found; [reflexivity|].
  intros kw Hin. now apply moderateOutput_leaves_no_match.
Qed.

(** ** The Completion Client: specified properties *)

(** C8.  Without a credential in the environment [callDeepseekAPI] throws
    the configuration error at once: nothing was done before, no request
    in particular, and the message tells how to set the variable under
    Windows CMD and under PowerShell. *)
Theorem missing_key_is_configuration_error
    (OPENROUTER_API_KEY : option jsstring) (userInput : jsstring) :
  key_missing OPENROUTER_API_KEY = true ->
  callDeepseekAPI OPENROUTER_API_KEY userInput
    = ([], Thrown (Error msg_key_not_found))
  /\ includes msg_key_not_found
       (js "Windows CMD: set OPENROUTER_API_KEY=your-key-here") = true
  /\ includes msg_key_not_found
       (js "Windows PowerShell: $env:OPENROUTER_API_KEY=") = true.
Proof.
  intros Hkey. unfold callDeepseekAPI. rewrite Hkey.
  repeat split; reflexivity.
Qed.

Lemma missing_key_is_configuration_error_witness :
  callDeepseekAPI None sample_question
    = ([], Thrown (Error msg_key_not_found))
  /\ includes msg_key_not_found
       (js "Windows CMD: set OPENROUTER_API_KEY=your-key-here") = true
  /\ includes msg_key_not_found
       (js "Windows PowerShell: $env:OPENROUTER_API_KEY=") = true.
Proof.
  apply (missing_key_is_configuration_error None sample_question).
  reflexivity.
Defined.

(** C10.  With a credential configured the body of [callDeepseekAPI] is
    over after the check: it returns [undefined] and has done nothing, no
    request in particular. *)
Theorem configured_key_returns_undefined
    (OPENROUTER_API_KEY : option jsstring) (userInput : jsstring) :
  key_missing OPENROUTER_API_KEY = false ->
  callDeepseekAPI OPENROUTER_API_KEY userInput = ([], Returned VUndefined).
Proof. intros Hkey. unfold callDeepseekAPI. now rewrite Hkey. Qed.

Lemma configured_key_returns_undefined_witness :
  callDeepseekAPI (Some sample_key) sample_question = ([], Returned VUndefined).
Proof.
  apply (configured_key_returns_undefined (Some sample_key) sample_question).
  reflexivity.
Defined.

(** C1 (defect of the code).  The credential is configured and the user
    asks a question: [callDeepseekAPI] sends no request and returns
    [undefined], not the trimmed content of a completion.  The statements
    that build and send the request stand behind the end of the function;
    run on the same question they do send the one POST the specification
    describes, whatever the transport answers, and return the trimmed
    content of a successful answer. *)
Theorem callDeepseekAPI_sends_no_request :
  callDeepseekAPI (Some sample_key) sample_question = ([], Returned VUndefined)
  /\ result (requestStatements (Some sample_key) (Some sample_question)
               (fun _ => Returned completed))
     = Returned (VString (js "Paris is the capital of France."))
  /\ (forall transport,
        filter is_fetch
          (trace (requestStatements (Some sample_key) (Some sample_question)
                    transport))
        = [ Fetch OPENROUTER_API_URL
              {| method := js "POST";
                 headers :=
                   [ (js "Content-Type", js "application/json");
                     (js "Authorization", js "Bearer " ++ sample_key);
                     (js "HTTP-Referer", js "http://localhost:3000");
                     (js "X-Title", js "AI Chat Moderation App") ];
                 body :=
                   {| model := js "deepseek/deepseek-chat";
                      messages :=
                        [ {| role := js "system"; content := SYSTEM_PROMPT |};
                          {| role := js "user"; content := sample_question |} ];
                      max_tokens := 500;
                      temperature := (7, 10)%N |} |} ]).
Proof.
  split; [reflexivity|]. split; [reflexivity|]. intros transport.
  unfold requestStatements, fetch, try_catch, bind, trace, key_text.
  destruct (transport _) as [[[] st bt [[|c a]|]]|e]; reflexivity.
Qed.

(** C9 (defect of the code).  With the credential configured
    [callDeepseekAPI] completes with [undefined] and raises neither error,
    for it never sees a response.  The statements behind the end of the
    function do raise them: on the answer 500 "server overloaded" the
    error carries the status and the body, on an answer without content
    the error of the empty response. *)
Theorem callDeepseekAPI_raises_no_upstream_error :
  callDeepseekAPI (Some sample_key) sample_question = ([], Returned VUndefined)
  /\ result (requestStatements (Some sample_key) (Some sample_question)
               (fun _ => Returned overloaded))
     = Thrown (Error (js "OpenRouter API Error (500): server overloaded"))
  /\ result (requestStatements (Some sample_key) (Some sample_question)
               (fun _ => Returned no_content))
     = Thrown (Error msg_no_content).
Proof. repeat split; reflexivity. Qed.

(** ** The Orchestrator: specified properties *)

Lemma main_empty_input (callOpenRouter : option (jsstring -> M value))
    (typed : jsstring) :
  trim typed = [] ->
  main callOpenRouter typed
    = (opening ++ [ConsoleLog [VString msg_nothing_entered]; Close], Returned tt).
Proof. intros H. unfold main. cbn [bind emit ret]. rewrite H. reflexivity. Qed.

Lemma main_banned_input (callOpenRouter : option (jsstring -> M value))
    (typed : jsstring) :
  trim typed <> [] -> containsBannedContent typed = true ->
  main callOpenRouter typed
    = (opening ++ [ ConsoleLog [VString msg_checking_input];
                    ConsoleLog [VString msg_input_violated];
                    ConsoleLog [VString msg_please_rephrase];
                    Close ], Returned tt).
Proof.
  intros Hne Hb. unfold main. cbn [bind emit ret].
  destruct (trim typed); [congruence|]. rewrite Hb. reflexivity.
Qed.

(** [main] in the scope of the module as it stands: the identifier
    [callOpenRouter] has no binding there, and an input that passes both
    checks ends in the report of that error. *)
Lemma main_unbound_client (typed : jsstring) :
  trim typed <> [] -> containsBannedContent typed = false ->
  main module_callOpenRouter typed
    = (opening ++ [ ConsoleLog [VString msg_checking_input];
                    ConsoleLog [VString msg_input_safe];
                    ConsoleError [VString msg_error_occurred;
                                  VString (js "callOpenRouter is not defined")];
                    Close ], Returned tt).
Proof.
  intros Hne Hb. unfold main, module_callOpenRouter. cbn [bind emit ret].
  destruct (trim typed); [congruence|]. rewrite Hb. reflexivity.
Qed.

(** C2.  The input passed both checks and the client returned a text:
    [main] hands that text to [moderateOutput] and prints the text of the
    verdict between the rules, after the line that tells whether it was
    safe; an unsafe verdict is printed like a safe one, in its redacted
    form. *)
Theorem main_displays_moderated_reply
    (client : jsstring -> M value) (typed reply : jsstring)
    (client_events : list event) :
  trim typed <> [] ->
  containsBannedContent typed = false ->
  client typed = (client_events, Returned (VString reply)) ->
  main (Some client) typed
    = (opening
         ++ [ ConsoleLog [VString msg_checking_input];
              ConsoleLog [VString msg_input_safe];
              Call (js "callOpenRouter") typed ]
         ++ client_events
         ++ [ ConsoleLog [VString msg_checking_response] ]
         ++ display (moderateOutput reply)
         ++ [ Close ],
       Returned tt).
Proof.
  intros Hne Hb Hclient. unfold main. cbn [bind emit ret].
  destruct (trim typed); [congruence|]. rewrite Hb, Hclient.
  unfold display, opening, console_log, emit, try_finally, try_catch, bind,
    moderateOutput_value, ret.
  cbn [fst snd negb app].
  destruct (isSafe (moderateOutput reply)); cbn [negb app];
    rewrite <- app_assoc; reflexivity.
Qed.

Lemma main_displays_moderated_reply_witness :
  trace (main (Some sample_client) sample_question)
  = opening
      ++ [ ConsoleLog [VString msg_checking_input];
           ConsoleLog [VString msg_input_safe];
           Call (js "callOpenRouter") sample_question;
           Fetch OPENROUTER_API_URL (requestInit sample_key sample_question);
           ConsoleLog [VString msg_checking_response];
           ConsoleLog [VString msg_warning_redacted];
           ConsoleLog [VString rule];
           ConsoleLog [VString msg_ai_response];
           ConsoleLog [VString rule];
           ConsoleLog [VString (js "[REDACTED] is never the answer")];
           ConsoleLog [VString rule_nl];
           Close ].
Proof.
  rewrite (main_displays_moderated_reply sample_client sample_question
             sample_reply
             [Fetch OPENROUTER_API_URL (requestInit sample_key sample_question)]).
  - reflexivity.
  - discriminate.
  - reflexivity.
  - reflexivity.
Defined.

(** ** White space *)

Lemma trimStart_nil (s : jsstring) :
  trimStart s = [] <-> forallb isWhiteSpace s = true.
Proof.
  induction s as [|c s IH]; simpl; [tauto|].
  destruct (isWhiteSpace c); simpl; [assumption|]. split; discriminate.
Qed.

Lemma trimStart_fixed (s : jsstring) :
  forallb isWhiteSpace (trimStart s) = true -> trimStart s = [].
Proof.
  induction s as [|c s IH]; simpl; [reflexivity|].
  destruct (isWhiteSpace c) eqn:Hc; [assumption|].
  simpl. rewrite Hc. discriminate.
Qed.

Lemma forallb_rev (f : N -> bool) (s : jsstring) :
  forallb f (rev s) = forallb f s.
Proof.
  destruct (forallb f s) eqn:H.
  - rewrite forallb_forall in *. intros x Hx. apply H. now apply in_rev.
  - destruct (forallb f (rev s)) eqn:H'; [|reflexivity].
    rewrite <- H. symmetry. rewrite forallb_forall in *.
    intros x Hx. apply H'. now apply in_rev in Hx.
Qed.

(** [trim] leaves nothing exactly of the texts made of white space. *)
Lemma trim_nil (s : jsstring) :
  trim s = [] <-> forallb isWhiteSpace s = true.
Proof.
  unfold trim. split.
  - intros H. apply (f_equal (@rev N)) in H. rewrite rev_involutive in H.
    simpl in H. apply trimStart_nil in H. rewrite forallb_rev in H.
    now apply trimStart_nil, trimStart_fixed.
  - intros H. apply trimStart_nil in H. now rewrite H.
Qed.

(** C7.  When a run of [main] reaches the remote side, by the call of the
    client or by a request, the line typed was not made of white space
    only, was not empty once trimmed, and [containsBannedContent] was
    false on it. *)
Theorem remote_side_reached_only_after_both_checks
    (callOpenRouter : option (jsstring -> M value)) (typed : jsstring) :
  existsb is_remote (trace (main callOpenRouter typed)) = true ->
  forallb isWhiteSpace typed = false
  /\ trim typed <> []
  /\ containsBannedContent typed = false.
Proof.
  intros Hremote.
  destruct (trim typed) as [|c r] eqn:Htrim.
  - rewrite (main_empty_input callOpenRouter typed Htrim) in Hremote.
    discriminate.
  - assert (Hne : trim typed <> []) by now rewrite Htrim.
    rewrite <- Htrim. split; [|split].
    + destruct (forallb isWhiteSpace typed) eqn:Hws; [|reflexivity].
      now apply trim_nil in Hws.
    + assumption.
    + destruct (containsBannedContent typed) eqn:Hb; [|reflexivity].
      rewrite (main_banned_input callOpenRouter typed Hne Hb) in Hremote.
      discriminate.
Qed.

Lemma remote_side_reached_only_after_both_checks_witness :
  existsb is_remote (trace (main (Some sample_client) sample_question)) = true
  /\ trim sample_question <> []
  /\ containsBannedContent sample_question = false.
Proof.
  split; [reflexivity|].
  apply (remote_side_reached_only_after_both_checks
           (Some sample_client) sample_question).
  reflexivity.
Defined.

(** * Further properties of the script *)

(** ** [containsBannedContent] *)

(** X1.  [containsBannedContent] answers true exactly on the texts in
    which some denylist term occurs in a case variant, that is as a
    substring whose lower-case form is the term. *)
Theorem containsBannedContent_iff_occurs (input : jsstring) :
  containsBannedContent input = true <->
  exists kw, In kw BANNED_KEYWORDS /\ Occurs kw input.
Proof. apply containsBannedContent_true. Qed.

Lemma Occurs_context (kw a s b : jsstring) :
  Occurs kw s -> Occurs kw (a ++ s ++ b).
Proof.
  intros (pre & m & post & -> & Hm). exists (a ++ pre), m, (post ++ b).
  split; [|assumption]. now rewrite <- !app_assoc.
Qed.

(** X2.  No word boundary is looked for: a text that is rejected stays
    rejected whatever is written before and after it. *)
Theorem containsBannedContent_in_context (before s after : jsstring) :
  containsBannedContent s = true ->
  containsBannedContent (before ++ s ++ after) = true.
Proof.
  intros H. apply containsBannedContent_true in H as (kw & Hin & Hocc).
  apply containsBannedContent_true. exists kw. split; [assumption|].
  now apply Occurs_context.
Qed.

Lemma containsBannedContent_in_context_witness :
  containsBannedContent (js "sc" ++ js "rape" ++ js "d knee") = true.
Proof.
  apply (containsBannedContent_in_context (js "sc") (js "rape") (js "d knee")).
  reflexivity.
Defined.

Lemma toLowerCase_unit_fixed (y : N) :
  ~ (65 <= y <= 90)%N -> ~ (192 <= y <= 222 /\ y <> 215)%N ->
  y <> KELVIN_SIGN -> y <> CAPITAL_I_WITH_DOT ->
  y <> CAPITAL_Y_WITH_DIAERESIS -> y <> CAPITAL_SHARP_S ->
  y <> ANGSTROM_SIGN ->
  toLowerCase_unit y = [y].
Proof.
  intros H1 H2 H3 H4 H5 H6 H7. unfold toLowerCase_unit.
  unit_cases; try reflexivity; try contradiction; exfalso; lia.
Qed.

Lemma toLowerCase_unit_lowered (c : N) :
  Forall (fun y => toLowerCase_unit y = [y]) (toLowerCase_unit c).
Proof.
  unfold toLowerCase_unit at 2.
  unit_cases; repeat constructor; apply toLowerCase_unit_fixed;
    unfold KELVIN_SIGN, CAPITAL_I_WITH_DOT, CAPITAL_Y_WITH_DIAERESIS,
      CAPITAL_SHARP_S, ANGSTROM_SIGN, COMBINING_DOT_ABOVE in *; lia.
Qed.

Lemma toLowerCase_unit_idempotent (c : N) :
  toLowerCase (toLowerCase_unit c) = toLowerCase_unit c.
Proof.
  induction (toLowerCase_unit_lowered c) as [|y l Hy Hl IH]; [reflexivity|].
  change (toLowerCase (y :: l)) with (toLowerCase_unit y ++ toLowerCase l).
  now rewrite Hy, IH.
Qed.

Lemma toLowerCase_idempotent (s : jsstring) :
  toLowerCase (toLowerCase s) = toLowerCase s.
Proof.
  induction s as [|c s IH]; [reflexivity|].
  change (toLowerCase (c :: s)) with (toLowerCase_unit c ++ toLowerCase s).
  now rewrite toLowerCase_app, toLowerCase_unit_idempotent, IH.
Qed.

(** X3.  The answer of [containsBannedContent] does not depend on the
    case of the text: the text and its lower-case form get the same
    answer. *)
Theorem containsBannedContent_of_lowered (input : jsstring) :
  containsBannedContent (toLowerCase input) = containsBannedContent input.
Proof.
  unfold containsBannedContent. now rewrite toLowerCase_idempotent.
Qed.

(** ** [moderateOutput] *)

Lemma test_false_not_Found (kw s : jsstring) :
  RegExp.test (RegExp.gi kw) s = false <-> ~ Found kw s.
Proof.
  rewrite <- test_Found. destruct (RegExp.test _ s); split; congruence.
Qed.

(** X4.  The loop tests each term on the working copy, in which earlier
    terms are already replaced; the flag it ends with is nevertheless the
    one of the text it was given: [isSafe] is false exactly when the
    regular expression of some term matches the input. *)
Theorem isSafe_reflects_the_input (input : jsstring) :
  isSafe (moderateOutput input)
  = negb (existsb (fun keyword => RegExp.test (RegExp.gi keyword) input)
            BANNED_KEYWORDS).
Proof.
  destruct (moderation_inv_final input) as (_ & _ & Hsafe & Hfound).
  unfold moderateOutput. cbn [isSafe]. f_equal.
  destruct (foundBannedContent _) eqn:Hf.
  - destruct (Hfound eq_refl) as (k & Hin & Hk). symmetry.
    apply existsb_exists. exists k. split; [assumption | now apply test_Found].
  - destruct (Hsafe eq_refl) as [_ Hno].
    destruct (existsb _ BANNED_KEYWORDS) eqn:He; [|reflexivity].
    apply existsb_exists in He as (k & Hin & Hk).
    apply test_Found in Hk. now apply Hno in Hk.
Qed.

(** X5.  Whatever the input, the text of the verdict is the input in
    which disjoint matches of denylist terms were each replaced by the
    marker; every code unit outside these matches is kept, in its
    place. *)
Theorem moderateOutput_only_redacts (input : jsstring) :
  Redacts input (text (moderateOutput input)).
Proof.
  now destruct (moderation_inv_final input) as (HR & _).
Qed.

(** X6.  In the text of a verdict the regular expression of no denylist
    term finds a match any more, even though a marker put in for one term
    stands in the text on which the later terms are tested. *)
Theorem moderateOutput_redaction_total_for_matches (input kw : jsstring) :
  In kw BANNED_KEYWORDS ->
  RegExp.test (RegExp.gi kw) (text (moderateOutput input)) = false.
Proof.
  intros Hin. apply test_false_not_Found.
  now apply moderateOutput_leaves_no_match.
Qed.

Lemma moderateOutput_redaction_total_for_matches_witness :
  RegExp.test (RegExp.gi (js "hack"))
    (text (moderateOutput (js "hacKill the hackhack"))) = false.
Proof.
  apply (moderateOutput_redaction_total_for_matches
           (js "hacKill the hackhack") (js "hack")).
  simpl. tauto.
Defined.

(** X7.  A verdict is safe exactly when its text is the input, code unit
    for code unit. *)
Theorem isSafe_iff_unchanged (input : jsstring) :
  isSafe (moderateOutput input) = true <-> text (moderateOutput input) = input.
Proof.
  destruct (moderation_inv_final input) as (_ & Hclean & Hsafe & Hfound).
  unfold moderateOutput. cbn [isSafe text].
  set (st := fold_left moderate_keyword BANNED_KEYWORDS _) in *.
  destruct (foundBannedContent st) eqn:Hf; cbn [negb]; split; intros H.
  - discriminate.
  - exfalso. destruct (Hfound eq_refl) as (k & Hin & Hk).
    apply (Hclean k Hin). now rewrite H.
  - now destruct (Hsafe eq_refl).
  - reflexivity.
Qed.

(** X8.  A second pass changes nothing: the verdict on the text of a
    verdict is that same text, marked safe. *)
Theorem moderateOutput_second_pass (input : jsstring) :
  moderateOutput (text (moderateOutput input))
  = {| isSafe := true; text := text (moderateOutput input) |}.
Proof.
  apply moderateOutput_nothing_found.
  intros kw Hin. now apply moderateOutput_leaves_no_match.
Qed.

(** X9.  The two matchers side by side: what [moderateOutput] marks
    unsafe [containsBannedContent] rejects, and a text that
    [containsBannedContent] lets through comes back from
    [moderateOutput] unchanged and safe. *)
Theorem accepted_input_needs_no_redaction (input : jsstring) :
  (isSafe (moderateOutput input) = false -> containsBannedContent input = true)
  /\ (containsBannedContent input = false ->
      moderateOutput input = {| isSafe := true; text := input |}).
Proof.
  assert (Hfound : forall kw, In kw BANNED_KEYWORDS -> Found kw input ->
                              containsBannedContent input = true).
  { intros kw Hin Hf. apply containsBannedContent_true. exists kw.
    split; [assumption|]. apply Found_Occurs; [now apply banned_lower|assumption]. }
  split.
  - intros Hunsafe.
    destruct (moderation_inv_final input) as (_ & _ & _ & Hf).
    unfold moderateOutput in Hunsafe. cbn [isSafe] in Hunsafe.
    apply negb_false_iff in Hunsafe.
    destruct (Hf Hunsafe) as (kw & Hin & Hk). now apply Hfound with kw.
  - intros Hok. apply moderateOutput_nothing_found. intros kw Hin Hk.
    rewrite (Hfound kw Hin Hk) in Hok. discriminate.
Qed.

Lemma Found_context (kw a s b : jsstring) :
  Found kw s -> Found kw (a ++ s ++ b).
Proof.
  intros (pre & m & post & -> & Hm). exists (a ++ pre), m, (post ++ b).
  split; [|assumption]. now rewrite <- !app_assoc.
Qed.

(** X10.  [moderateOutput] looks for no word boundary either: a text
    that is marked unsafe stays unsafe whatever is written before and
    after it. *)
Theorem moderateOutput_unsafe_in_context (before s after : jsstring) :
  isSafe (moderateOutput s) = false ->
  isSafe (moderateOutput (before ++ s ++ after)) = false.
Proof.
  intros H.
  destruct (moderation_inv_final s) as (_ & _ & _ & Hfound).
  destruct (moderation_inv_final (before ++ s ++ after)) as (_ & _ & Hsafe & _).
  unfold moderateOutput in *. cbn [isSafe] in *.
  apply negb_false_iff in H. destruct (Hfound H) as (kw & Hin & Hk).
  apply negb_false_iff.
  match goal with
  | |- foundBannedContent ?st = true =>
      destruct (foundBannedContent st) eqn:Hf; [reflexivity|]
  end.
  destruct (Hsafe eq_refl) as [_ Hno].
  exfalso. apply (Hno kw Hin). now apply Found_context.
Qed.

Lemma moderateOutput_unsafe_in_context_witness :
  isSafe (moderateOutput (js "the s" ++ js "kill" ++ js "et")) = false.
Proof.
  apply (moderateOutput_unsafe_in_context (js "the s") (js "kill") (js "et")).
  reflexivity.
Defined.

Lemma banned_length (kw : jsstring) :
  In kw BANNED_KEYWORDS -> List.length kw <= List.length REDACTED.
Proof.
  intros H. change (List.length REDACTED) with 10.
  each_keyword H;
    match goal with
    | |- List.length ?k <= _ =>
        let n := eval vm_compute in (List.length k) in
        change (List.length k) with n
    end; lia.
Qed.

Lemma Redacts_length (s t : jsstring) :
  Redacts s t -> List.length s <= List.length t.
Proof.
  induction 1 as [| c s t H IH | m kw s t Hin Hm H IH ].
  - simpl. lia.
  - simpl. lia.
  - rewrite !length_app, (i_equal_length _ _ Hm).
    pose proof (banned_length kw Hin). lia.
Qed.

(** X11.  Every denylist term is shorter than the marker, so moderation
    never shortens a text. *)
Theorem moderateOutput_never_shortens (input : jsstring) :
  List.length input <= List.length (text (moderateOutput input)).
Proof.
  apply Redacts_length.
  now destruct (moderation_inv_final input) as (HR & _).
Qed.

(** ** [main] *)

Lemma whitespace_unit (c : N) :
  isWhiteSpace c = true ->
  toLowerCase_unit c = [c] /\ is_lower_letter c = false.
Proof.
  unfold isWhiteSpace. intros H.
  repeat (apply orb_true_iff in H as [H | H]);
    repeat match type of H with
           | (_ && _)%bool = true => apply andb_true_iff in H as [H ?]
           end;
    repeat match goal with
           | E : (_ <=? _)%N = true |- _ => apply N.leb_le in E
           | E : (_ =? _)%N = true |- _ => apply N.eqb_eq in E
           end;
    (split;
     [ apply toLowerCase_unit_fixed;
       unfold KELVIN_SIGN, CAPITAL_I_WITH_DOT, CAPITAL_Y_WITH_DIAERESIS,
         CAPITAL_SHARP_S, ANGSTROM_SIGN; lia
     | unfold is_lower_letter; unit_cases; try reflexivity; lia ]).
Qed.

(** A text in which a term occurs is not made of white space. *)
Lemma Occurs_not_blank (kw s : jsstring) :
  lower_letters kw = true -> kw <> [] -> Occurs kw s ->
  forallb isWhiteSpace s = false.
Proof.
  intros Hl Hne (pre & m & post & -> & Hm).
  unfold ci_equal in Hm. rewrite (toLowerCase_lower kw Hl) in Hm.
  destruct kw as [|p kw]; [congruence|].
  destruct m as [|c m]; [discriminate|].
  simpl in Hl. apply andb_true_iff in Hl as [Hp _].
  destruct (forallb isWhiteSpace (pre ++ (c :: m) ++ post)) eqn:Hws;
    [|reflexivity].
  rewrite forallb_forall in Hws.
  assert (Hc : isWhiteSpace c = true).
  { apply Hws, in_or_app. right. now left. }
  destruct (whitespace_unit c Hc) as [Hlow Hnot].
  change (toLowerCase (c :: m)) with (toLowerCase_unit c ++ toLowerCase m) in Hm.
  rewrite Hlow in Hm. injection Hm as -> _. congruence.
Qed.

Lemma banned_not_blank (typed : jsstring) :
  containsBannedContent typed = true -> trim typed <> [].
Proof.
  intros Hb Htrim. apply trim_nil in Htrim.
  apply containsBannedContent_true in Hb as (kw & Hin & Hocc).
  rewrite (Occurs_not_blank kw typed (banned_lower kw Hin)
             (banned_nonempty kw Hin) Hocc) in Htrim.
  discriminate.
Qed.

(** X12.  A line made of white space only, the empty line among them, is
    answered by the one message that nothing was entered; the interface
    is closed and nothing else happens, whatever [callOpenRouter] is. *)
Theorem main_on_blank_line
    (callOpenRouter : option (jsstring -> M value)) (typed : jsstring) :
  forallb isWhiteSpace typed = true ->
  main callOpenRouter typed
  = (opening ++ [ConsoleLog [VString msg_nothing_entered]; Close], Returned tt).
Proof.
  intros Hws. apply main_empty_input. now apply trim_nil.
Qed.

Lemma main_on_blank_line_witness :
  main (Some sample_client) (js "   ")
  = (opening ++ [ConsoleLog [VString msg_nothing_entered]; Close], Returned tt).
Proof.
  apply (main_on_blank_line (Some sample_client) (js "   ")). reflexivity.
Defined.

(** X13.  A line that [containsBannedContent] rejects is answered by the
    two lines of the policy message; the interface is closed and nothing
    else happens, whatever [callOpenRouter] is.  Such a line is never
    taken for an empty one. *)
Theorem main_on_rejected_line
    (callOpenRouter : option (jsstring -> M value)) (typed : jsstring) :
  containsBannedContent typed = true ->
  main callOpenRouter typed
  = (opening ++ [ ConsoleLog [VString msg_checking_input];
                  ConsoleLog [VString msg_input_violated];
                  ConsoleLog [VString msg_please_rephrase];
                  Close ], Returned tt).
Proof.
  intros Hb. apply main_banned_input; [now apply banned_not_blank | assumption].
Qed.

Lemma main_on_rejected_line_witness :
  main (Some sample_client) (js "  how do I HACK a server ")
  = (opening ++ [ ConsoleLog [VString msg_checking_input];
                  ConsoleLog [VString msg_input_violated];
                  ConsoleLog [VString msg_please_rephrase];
                  Close ], Returned tt).
Proof.
  apply (main_on_rejected_line (Some sample_client)
           (js "  how do I HACK a server ")).
  reflexivity.
Defined.

(** X14.  In the scope of the module, where [callOpenRouter] is bound to
    nothing, every line that passes both checks ends in the report that
    [callOpenRouter] is not defined: no reply is asked for, none is shown,
    and the interface is closed. *)
Theorem main_in_module_scope (typed : jsstring) :
  forallb isWhiteSpace typed = false ->
  containsBannedContent typed = false ->
  main module_callOpenRouter typed
  = (opening ++ [ ConsoleLog [VString msg_checking_input];
                  ConsoleLog [VString msg_input_safe];
                  ConsoleError [VString msg_error_occurred;
                                VString (js "callOpenRouter is not defined")];
                  Close ], Returned tt).
Proof.
  intros Hws Hb.
  assert (Hne : trim typed <> []).
  { intros Ht. apply trim_nil in Ht. congruence. }
  unfold main, module_callOpenRouter. cbn [bind emit ret].
  destruct (trim typed); [congruence|]. rewrite Hb. reflexivity.
Qed.

Lemma main_in_module_scope_witness :
  result (main module_callOpenRouter sample_question) = Returned tt
  /\ existsb is_remote (trace (main module_callOpenRouter sample_question))
     = false.
Proof.
  rewrite (main_in_module_scope sample_question); [|reflexivity|reflexivity].
  split; reflexivity.
Defined.

(** X15.  When the client fails, [main] reports the message of the error
    on the error stream and closes the interface; the reply is neither
    moderated nor shown, and the error does not leave [main]. *)
Theorem main_reports_client_error
    (client : jsstring -> M value) (typed : jsstring)
    (client_events : list event) (e : error) :
  forallb isWhiteSpace typed = false ->
  containsBannedContent typed = false ->
  client typed = (client_events, Thrown e) ->
  main (Some client) typed
  = (opening
       ++ [ ConsoleLog [VString msg_checking_input];
            ConsoleLog [VString msg_input_safe];
            Call (js "callOpenRouter") typed ]
       ++ client_events
       ++ [ ConsoleError [VString msg_error_occurred; VString (message e)];
            Close ],
     Returned tt).
Proof.
  intros Hws Hb Hclient.
  assert (Hne : trim typed <> []).
  { intros Ht. apply trim_nil in Ht. congruence. }
  unfold main. cbn [bind emit ret].
  destruct (trim typed); [congruence|]. rewrite Hb, Hclient.
  unfold opening, console_log, emit, try_finally, try_catch, bind, ret.
  cbn [fst snd app]. rewrite <- !app_assoc. reflexivity.
Qed.

Lemma main_reports_client_error_witness :
  main (Some (callDeepseekAPI None)) sample_question
  = (opening
       ++ [ ConsoleLog [VString msg_checking_input];
            ConsoleLog [VString msg_input_safe];
            Call (js "callOpenRouter") sample_question;
            ConsoleError [VString msg_error_occurred;
                          VString msg_key_not_found];
            Close ],
     Returned tt).
Proof.
  rewrite (main_reports_client_error (callDeepseekAPI None) sample_question []
             (Error msg_key_not_found)).
  - reflexivity.
  - vm_compute. reflexivity.
  - vm_compute. reflexivity.
  - reflexivity.
Defined.

Lemma moderateOutput_value_undefined :
  moderateOutput_value VUndefined = ret (true, VUndefined).
Proof. reflexivity. Qed.

(** X16.  A client that returns nothing, as [callDeepseekAPI] does with a
    key configured, does not stop [main]: [undefined] passes the
    moderation, for no term matches the text "undefined", and is printed
    as a safe reply. *)
Theorem main_shows_undefined_reply
    (client : jsstring -> M value) (typed : jsstring)
    (client_events : list event) :
  forallb isWhiteSpace typed = false ->
  containsBannedContent typed = false ->
  client typed = (client_events, Returned VUndefined) ->
  main (Some client) typed
  = (opening
       ++ [ ConsoleLog [VString msg_checking_input];
            ConsoleLog [VString msg_input_safe];
            Call (js "callOpenRouter") typed ]
       ++ client_events
       ++ [ ConsoleLog [VString msg_checking_response];
            ConsoleLog [VString msg_response_safe];
            ConsoleLog [VString rule];
            ConsoleLog [VString msg_ai_response];
            ConsoleLog [VString rule];
            ConsoleLog [VUndefined];
            ConsoleLog [VString rule_nl];
            Close ],
     Returned tt).
Proof.
  intros Hws Hb Hclient.
  assert (Hne : trim typed <> []).
  { intros Ht. apply trim_nil in Ht. congruence. }
  unfold main. cbn [bind emit ret].
  destruct (trim typed); [congruence|]. rewrite Hb, Hclient.
  unfold opening, console_log, emit, try_finally, try_catch, bind, ret,
    moderateOutput_value.
  change (existsb _ BANNED_KEYWORDS) with false. unfold ret.
  cbn [fst snd negb app]. rewrite <- !app_assoc. reflexivity.
Qed.

Lemma main_shows_undefined_reply_witness :
  main (Some (callDeepseekAPI (Some sample_key))) sample_question
  = (opening
       ++ [ ConsoleLog [VString msg_checking_input];
            ConsoleLog [VString msg_input_safe];
            Call (js "callOpenRouter") sample_question;
            ConsoleLog [VString msg_checking_response];
            ConsoleLog [VString msg_response_safe];
            ConsoleLog [VString rule];
            ConsoleLog [VString msg_ai_response];
            ConsoleLog [VString rule];
            ConsoleLog [VUndefined];
            ConsoleLog [VString rule_nl];
            Close ],
     Returned tt).
Proof.
  rewrite (main_shows_undefined_reply (callDeepseekAPI (Some sample_key))
             sample_question []).
  - reflexivity.
  - vm_compute. reflexivity.
  - vm_compute. reflexivity.
  - reflexivity.
Defined.


(** ** The statements behind [callDeepseekAPI] (lines 77-117) *)

(** X18.  Whatever the key, the question and the answer of the transport,
    the statements send one request and no second one: a failure is not
    retried.  When the identifier [userInput] resolves to nothing they
    stop before any request. *)
Theorem requestStatements_single_request
    (OPENROUTER_API_KEY : option jsstring) (userInput : jsstring)
    (transport : RequestInit -> outcome Response) :
  filter is_fetch
    (trace (requestStatements OPENROUTER_API_KEY (Some userInput) transport))
  = [ Fetch OPENROUTER_API_URL
        (requestInit (key_text OPENROUTER_API_KEY) userInput) ]
  /\ filter is_fetch
       (trace (requestStatements OPENROUTER_API_KEY None transport))
     = [].
Proof.
  split; [|reflexivity].
  unfold requestStatements, fetch, try_catch, bind, trace.
  destruct (transport _) as [[[] st bt [[|c a]|]]|e]; reflexivity.
Qed.

(** X19.  Whatever goes wrong after the request was built, a failing
    transport, an answer that is not ok or one without content, the error
    is written once to the error stream with its message, as the last
    action, and thrown on unchanged. *)
Theorem requestStatements_log_and_rethrow
    (OPENROUTER_API_KEY : option jsstring) (userInput : jsstring)
    (transport : RequestInit -> outcome Response) (e : error) :
  result (requestStatements OPENROUTER_API_KEY (Some userInput) transport)
    = Thrown e ->
  trace (requestStatements OPENROUTER_API_KEY (Some userInput) transport)
  = [ ConsoleLog [VString msg_sending];
      Fetch OPENROUTER_API_URL
        (requestInit (key_text OPENROUTER_API_KEY) userInput);
      ConsoleError [VString msg_error_calling; VString (message e)] ].
Proof.
  unfold requestStatements, fetch, try_catch, bind, trace, result.
  destruct (transport _) as [[[] st bt [[|c a]|]]|e'];
    unfold throw, emit, ret;
    cbn [fst snd negb app ok json_content];
    intros H; try discriminate; injection H as <-; reflexivity.
Qed.

Lemma requestStatements_log_and_rethrow_witness :
  trace (requestStatements (Some sample_key) (Some sample_question)
           (fun _ => Returned overloaded))
  = [ ConsoleLog [VString msg_sending];
      Fetch OPENROUTER_API_URL (requestInit sample_key sample_question);
      ConsoleError
        [ VString msg_error_calling;
          VString (js "OpenRouter API Error (500): server overloaded") ] ].
Proof.
  rewrite (requestStatements_log_and_rethrow (Some sample_key) sample_question
             (fun _ => Returned overloaded)
             (Error (js "OpenRouter API Error (500): server overloaded"))).
  - reflexivity.
  - vm_compute. reflexivity.
Defined.

(** X20.  The content is tested before it is trimmed: a content made of
    white space only is not taken for a missing one, and the statements
    end with the empty text instead of the error of the empty answer. *)
Theorem requestStatements_blank_content
    (OPENROUTER_API_KEY : option jsstring) (userInput : jsstring)
    (transport : RequestInit -> outcome Response) (response : Response)
    (aiMessage : jsstring) :
  transport (requestInit (key_text OPENROUTER_API_KEY) userInput)
    = Returned response ->
  ok response = true ->
  json_content response = Some aiMessage ->
  aiMessage <> [] ->
  forallb isWhiteSpace aiMessage = true ->
  result (requestStatements OPENROUTER_API_KEY (Some userInput) transport)
  = Returned (VString []).
Proof.
  intros Ht Hok Hc Hne Hws.
  unfold requestStatements, fetch, try_catch, bind, result.
  rewrite Ht, Hok, Hc. cbn [negb snd].
  destruct aiMessage as [|c a]; [congruence|].
  apply trim_nil in Hws. rewrite Hws. reflexivity.
Qed.

Lemma requestStatements_blank_content_witness :
  result (requestStatements (Some sample_key) (Some sample_question)
            (fun _ => Returned {| ok := true; status := 200;
                                  body_text := js "{...}";
                                  json_content := Some (js "  ") |}))
  = Returned (VString []).
Proof.
  apply (requestStatements_blank_content (Some sample_key) sample_question _
           {| ok := true; status := 200; body_text := js "{...}";
              json_content := Some (js "  ") |} (js "  ")).
  - reflexivity.
  - reflexivity.
  - reflexivity.
  - discriminate.
  - vm_compute. reflexivity.
Defined.
